(** * AI Employee Sorter: the ranking merge, the PDF pipeline and the
      application state controller, embedded from the TypeScript sources.

    Sources embedded here:
    - [types.ts]: the three record types;
    - [services/geminiService.ts]: [rankEmployees], [distributeTasks];
    - [App.tsx]: [processPdfToImages], [handleFileChange], [handleSetError],
      [handleAddEmployee], [handleRankEmployees], [handleDistributeTasks].

    Conventions.
    - Text that the code only stores and compares ([id], [name], messages,
      MIME types) is a [string].  Text whose characters the code inspects
      ([String.prototype.trim] on the task text) is a sequence of UTF-16 code
      units, see [JsText].
    - [rank] is declared [number] and requested from the model as
      [Type.INTEGER]; it is an integer [Z] here.  The comparator
      [b.rank - a.rank] is only used through its sign.
    - [experienceYears] and the render scale are JavaScript numbers that are
      not integers: binary64 floats.
    - An [await] is a point where the outcome of the awaited collaborator (the
      remote model, the PDF library, the file reader) enters as an argument. *)

From Stdlib Require Import List String Ascii ZArith NArith Lia Bool.
From Stdlib Require Import Permutation Sorted.
From Stdlib Require Import Floats.PrimFloat.
Import ListNotations.
Open Scope string_scope.
Open Scope list_scope.

(** ** [types.ts] *)

Module AnalyzedEmployee.
Record t : Type := mk {
  id : string;
  name : string;
  summary : string;
  skills : list string;
  experienceYears : float
}.
End AnalyzedEmployee.

Module RankedEmployee.
Record t : Type := mk {
  id : string;
  name : string;
  summary : string;
  skills : list string;
  experienceYears : float;
  rank : Z;
  justification : string
}.

(** The [AnalyzedEmployee] that a [RankedEmployee] extends. *)
Definition base (e : t) : AnalyzedEmployee.t :=
  AnalyzedEmployee.mk (id e) (name e) (summary e) (skills e) (experienceYears e).
End RankedEmployee.

(** ** Thrown values

    [new Error(msg)] is [ErrorObject "Error" msg]; an exception of a library
    carries its own [name].  Anything else that can be thrown is a
    [ForeignValue], with its [name] property when it is an object that has
    one. *)

Inductive Thrown : Type :=
| ErrorObject (name : string) (message : string)
| ForeignValue (name : option string).

Definition new_Error (message : string) : Thrown := ErrorObject "Error" message.

(** [error && typeof error === 'object' && 'name' in error && error.name] *)
Definition thrown_name (e : Thrown) : option string :=
  match e with
  | ErrorObject n _ => Some n
  | ForeignValue n => n
  end.

(** [err instanceof Error ? err.message : fallback] *)
Definition message_or (fallback : string) (e : Thrown) : string :=
  match e with
  | ErrorObject _ m => m
  | ForeignValue _ => fallback
  end.

(** A promise that has settled: rejected with a thrown value, or fulfilled. *)
Definition Settled (A : Type) : Type := (Thrown + A)%type.

(** ** [Array.prototype.sort] with a comparator

    ECMAScript (2019 on) requires the sort to be stable, so for a consistent
    comparator the result is determined: [a] goes before [b] when
    [cmp a b < 0], after it when [cmp a b > 0], and two elements that compare
    equal keep their order.  Insertion computes that ordering. *)

Section ArraySort.
Context {A : Type} (cmp : A -> A -> Z).

Fixpoint sort_insert (x : A) (l : list A) : list A :=
  match l with
  | [] => [x]
  | y :: l' => if (cmp x y <=? 0)%Z then x :: y :: l' else y :: sort_insert x l'
  end.

Fixpoint array_sort (l : list A) : list A :=
  match l with
  | [] => []
  | x :: l' => sort_insert x (array_sort l')
  end.

(** The order that the comparator asks for: [a] may stand before [b]. *)
Definition may_precede (a b : A) : Prop := (cmp a b <= 0)%Z.
End ArraySort.

(** ** [String.prototype.split] and [trim]

    [s.split(sep)] with a separator of one character: the pieces between the
    occurrences of [sep], so a text with [k] separators gives [k + 1] pieces
    and the empty text gives one empty piece. *)

Fixpoint split_list {A : Type} (is_sep : A -> bool) (l : list A) : list (list A) :=
  match l with
  | [] => [[]]
  | c :: l' =>
      if is_sep c then [] :: split_list is_sep l'
      else match split_list is_sep l' with
           | [] => [[c]]
           | piece :: pieces => (c :: piece) :: pieces
           end
  end.

(** [split] on a [string], whose characters are bytes of UTF-8: the
    separators used here are ASCII, and an ASCII byte never occurs inside
    the encoding of another character. *)
Definition string_split (sep : ascii) (s : string) : list string :=
  map string_of_list_ascii (split_list (Ascii.eqb sep) (list_ascii_of_string s)).

(** Text as a sequence of UTF-16 code units, for the code that looks at the
    characters. *)
Module JsText.
Definition t : Type := list N.

(** The characters that [trim] removes: WhiteSpace (TAB, VT, FF, SP, NBSP,
    ZWNBSP and the category Zs) and LineTerminator (LF, CR, LS, PS). *)
Definition is_white_space (c : N) : bool :=
  existsb (N.eqb c)
    [9; 10; 11; 12; 13; 32; 160; 5760; 8232; 8233; 8239; 8287; 12288; 65279]%N
  || ((8192 <=? c)%N && (c <=? 8202)%N).

Fixpoint trimStart (s : t) : t :=
  match s with
  | [] => []
  | c :: s' => if is_white_space c then trimStart s' else s
  end.

Definition trimEnd (s : t) : t := rev (trimStart (rev s)).

Definition trim (s : t) : t := trimEnd (trimStart s).

(** [s !== ''] *)
Definition nonempty (s : t) : bool :=
  match s with
  | [] => false
  | _ :: _ => true
  end.

Definition LF : N := 10%N.

(** [s.split('\n')] *)
Definition split_lines (s : t) : list t := split_list (N.eqb LF) s.

(** [pieces.join('\n')] *)
Fixpoint join_lines (pieces : list t) : t :=
  match pieces with
  | [] => []
  | piece :: pieces' =>
      match pieces' with
      | [] => piece
      | _ :: _ => (piece ++ LF :: join_lines pieces')%list
      end
  end.

(** The code units of an ASCII literal. *)
Definition of_string (s : string) : t := map N_of_ascii (list_ascii_of_string s).
End JsText.

Module TaskAssignment.
Record t : Type := mk {
  employeeId : string;
  tasks : list JsText.t
}.
End TaskAssignment.

(** ** [geminiService.ts]: [rankEmployees] *)

(** One element of [rankedData], at its declared type
    [{ id: string; rank: number; justification: string }]. *)
Module Ranking.
Record t : Type := mk {
  id : string;
  rank : Z;
  justification : string
}.
End Ranking.

(** What a [try] block of [geminiService.ts] gets from the model:
    [ai.models.generateContent] rejects, or [JSON.parse(response.text)]
    throws, or the text parses to a value of the declared type. *)
Inductive ModelResponse (A : Type) : Type :=
| CallRejected (e : Thrown)
| TextNotJson (e : Thrown)
| Parsed (value : A).
Arguments CallRejected {A} e.
Arguments TextNotJson {A} e.
Arguments Parsed {A} value.

Definition response_failed {A : Type} (response : ModelResponse A) : bool :=
  match response with
  | Parsed _ => false
  | _ => true
  end.

(** [rankedData.find(r => r.id === emp.id)] *)
Definition find_ranking (rankedData : list Ranking.t) (emp : AnalyzedEmployee.t)
  : option Ranking.t :=
  find (fun r => Ranking.id r =? AnalyzedEmployee.id emp) rankedData.

(** [{ ...emp, ...ranking }]: the three properties of [ranking] are written
    after those of [emp], so [ranking.id] is the [id] of the result. *)
Definition spread_ranking (emp : AnalyzedEmployee.t) (ranking : Ranking.t)
  : RankedEmployee.t :=
  {| RankedEmployee.id := Ranking.id ranking;
     RankedEmployee.name := AnalyzedEmployee.name emp;
     RankedEmployee.summary := AnalyzedEmployee.summary emp;
     RankedEmployee.skills := AnalyzedEmployee.skills emp;
     RankedEmployee.experienceYears := AnalyzedEmployee.experienceYears emp;
     RankedEmployee.rank := Ranking.rank ranking;
     RankedEmployee.justification := Ranking.justification ranking |}.

(** [{ ...emp, rank: 0, justification: 'Not ranked' }] *)
Definition not_ranked (emp : AnalyzedEmployee.t) : RankedEmployee.t :=
  {| RankedEmployee.id := AnalyzedEmployee.id emp;
     RankedEmployee.name := AnalyzedEmployee.name emp;
     RankedEmployee.summary := AnalyzedEmployee.summary emp;
     RankedEmployee.skills := AnalyzedEmployee.skills emp;
     RankedEmployee.experienceYears := AnalyzedEmployee.experienceYears emp;
     RankedEmployee.rank := 0;
     RankedEmployee.justification := "Not ranked" |}.

(** The callback of [employees.map]. *)
Definition merge_ranking (rankedData : list Ranking.t) (emp : AnalyzedEmployee.t)
  : RankedEmployee.t :=
  match find_ranking rankedData emp with
  | Some ranking => spread_ranking emp ranking
  | None => not_ranked emp
  end.

(** [(a, b) => b.rank - a.rank] *)
Definition by_rank_desc (a b : RankedEmployee.t) : Z :=
  (RankedEmployee.rank b - RankedEmployee.rank a)%Z.

(** Non-increasing by rank: [a] before [b]. *)
Definition rank_ge (a b : RankedEmployee.t) : Prop :=
  (RankedEmployee.rank a >= RankedEmployee.rank b)%Z.

Definition RankingFailed : Thrown :=
  new_Error "Failed to rank employees with Gemini API.".

Definition rankEmployees (employees : list AnalyzedEmployee.t)
  (response : ModelResponse (list Ranking.t)) : Settled (list RankedEmployee.t) :=
  match response with
  | CallRejected _ => inl RankingFailed
  | TextNotJson _ => inl RankingFailed
  | Parsed rankedData =>
      let rankedEmployees := map (merge_ranking rankedData) employees in
      inr (array_sort by_rank_desc rankedEmployees)
  end.

(** ** [geminiService.ts]: [distributeTasks]

    The request carries the roster and the tasks; the value returned is the
    parsed array as it is. *)

Definition DistributionFailed : Thrown :=
  new_Error "Failed to distribute tasks with Gemini API.".

Definition distributeTasks (employees : list RankedEmployee.t) (tasks : list JsText.t)
  (response : ModelResponse (list TaskAssignment.t)) : Settled (list TaskAssignment.t) :=
  match response with
  | CallRejected _ => inl DistributionFailed
  | TextNotJson _ => inl DistributionFailed
  | Parsed assignments => inr assignments
  end.

(** ** [App.tsx]: [processPdfToImages]

    The PDF library ([window.pdfjsLib], loaded from a script tag), the file
    reader and the canvas are collaborators of the browser: the code is
    embedded over what they answer. *)

Record Viewport : Type := {
  height : float;
  width : float
}.

(** A canvas after drawing: [canvas.toDataURL(type)]. *)
Record Canvas : Type := {
  toDataURL : string -> string
}.

Record PdfPage : Type := {
  (** [page.getViewport({ scale })] *)
  getViewport : float -> Viewport;
  (** [page.render({ canvasContext, viewport }).promise], on a canvas of the
      height and width of [viewport]; fulfilled, the canvas holds the page. *)
  render : Viewport -> Settled Canvas
}.

Record PdfDocument : Type := {
  numPages : nat;
  (** [pdf.getPage(i)] *)
  getPage : nat -> Settled PdfPage
}.

Record PdfJs : Type := {
  (** [pdfjsLib.getDocument(typedarray).promise] *)
  getDocument : list Byte.byte -> Settled PdfDocument
}.

Record File : Type := {
  file_name : string;
  file_type : string
}.

(** How [fileReader.readAsArrayBuffer(file)] ends: [onerror], or [onload]
    with [event.target.result] ([None] when it is missing). *)
Inductive FileRead : Type :=
| ReadError
| ReadLoaded (result : option (list Byte.byte)).

Record Browser : Type := {
  pdfjsLib : option PdfJs;
  readAsArrayBuffer : File -> FileRead;
  (** whether [canvas.getContext('2d')] of the canvas created for page [i]
      is a context (not [null]) *)
  getContext2d : nat -> bool
}.

Record PageImage : Type := {
  mimeType : string;
  (** [None] is [undefined] *)
  data : option string
}.

Definition EnvironmentUnavailable : Thrown :=
  new_Error "PDF processing library is not loaded. Please wait a moment and try again.".
Definition UnsupportedDocument : Thrown :=
  new_Error "The PDF file is password-protected. Please provide a decrypted file.".
Definition CorruptDocument : Thrown :=
  new_Error "Failed to process the PDF file. It might be corrupted or in an unsupported format.".
Definition FileReadFailed : Thrown :=
  new_Error "An error occurred while reading the file.".
Definition FileResultMissing : Thrown :=
  new_Error "Failed to read file".

Definition render_scale : float := 1.5%float.

Definition bind {A B : Type} (m : Settled A) (k : A -> Settled B) : Settled B :=
  match m with
  | inl e => inl e
  | inr a => k a
  end.

Notation "x <- m ;; k" := (bind m (fun x => k))
  (at level 61, m at next level, right associativity).

(** [canvas.toDataURL('image/jpeg').split(',')[1]] *)
Definition base64Data (canvas : Canvas) : option string :=
  nth_error (string_split "," (toDataURL canvas "image/jpeg")) 1.

(** The body of the [for] loop, for page [i]. *)
Definition render_page (browser : Browser) (pdf : PdfDocument) (i : nat)
  : Settled PageImage :=
  page <- getPage pdf i ;;
  let viewport := getViewport page render_scale in
  if getContext2d browser i then
    canvas <- render page viewport ;;
    inr {| mimeType := "image/jpeg"; data := base64Data canvas |}
  else inl (new_Error "Could not get canvas context").

(** [for (let i = ...; i <= pdf.numPages; i++) { ...; images.push(...) }]
    with [remaining] iterations to go. *)
Fixpoint render_pages (browser : Browser) (pdf : PdfDocument) (i remaining : nat)
  (images : list PageImage) : Settled (list PageImage) :=
  match remaining with
  | O => inr images
  | S remaining' =>
      image <- render_page browser pdf i ;;
      render_pages browser pdf (S i) remaining' (images ++ [image])
  end.

(** The [try] block of [fileReader.onload], once the result is there. *)
Definition render_document (browser : Browser) (lib : PdfJs)
  (typedarray : list Byte.byte) : Settled (list PageImage) :=
  pdf <- getDocument lib typedarray ;;
  render_pages browser pdf 1 (numPages pdf) [].

(** The [catch] block of [fileReader.onload]. *)
Definition classify_failure (error : Thrown) : Thrown :=
  match thrown_name error with
  | Some n => if n =? "PasswordException" then UnsupportedDocument else CorruptDocument
  | None => CorruptDocument
  end.

Definition processPdfToImages (browser : Browser) (file : File)
  : Settled (list PageImage) :=
  match pdfjsLib browser with
  | None => inl EnvironmentUnavailable
  | Some lib =>
      match readAsArrayBuffer browser file with
      | ReadError => inl FileReadFailed
      | ReadLoaded None => inl FileResultMissing
      | ReadLoaded (Some typedarray) =>
          match render_document browser lib typedarray with
          | inr images => inr images
          | inl error => inl (classify_failure error)
          end
      end
  end.

(** A document that the library refuses for its password: [getDocument]
    rejects with a [PasswordException]. *)
Definition password_protected (lib : PdfJs) (bytes : list Byte.byte) : Prop :=
  exists e, getDocument lib bytes = inl e /\ thrown_name e = Some "PasswordException".

(** A document of [n] pages that the library opens and of which it gives
    and renders every page. *)
Definition renders_with (lib : PdfJs) (bytes : list Byte.byte)
  (pdf : PdfDocument) (n : nat) : Prop :=
  getDocument lib bytes = inr pdf /\ numPages pdf = n /\
  forall i, 1 <= i <= n ->
    exists page, getPage pdf i = inr page /\
      forall viewport, exists canvas, render page viewport = inr canvas.

(** The image that the loop makes of page [i]. *)
Definition image_of_page (pdf : PdfDocument) (i : nat) (image : PageImage) : Prop :=
  exists page canvas,
    getPage pdf i = inr page /\
    render page (getViewport page render_scale) = inr canvas /\
    image = {| mimeType := "image/jpeg";
               data := nth_error (string_split "," (toDataURL canvas "image/jpeg")) 1 |}.

(** ** [App.tsx]: the state of [App] and of [EmployeeForm] *)

Record App : Type := {
  employees : list AnalyzedEmployee.t;
  rankedEmployees : list RankedEmployee.t;
  assignments : list TaskAssignment.t;
  isRanking : bool;
  isDistributing : bool;
  error : option string;
  (** the delays of the [setTimeout(() => setError(null), delay)] pending *)
  timeouts : list Z
}.

Definition setEmployees (f : list AnalyzedEmployee.t -> list AnalyzedEmployee.t)
  (st : App) : App :=
  {| employees := f (employees st); rankedEmployees := rankedEmployees st;
     assignments := assignments st; isRanking := isRanking st;
     isDistributing := isDistributing st; error := error st;
     timeouts := timeouts st |}.

Definition setRankedEmployees (v : list RankedEmployee.t) (st : App) : App :=
  {| employees := employees st; rankedEmployees := v;
     assignments := assignments st; isRanking := isRanking st;
     isDistributing := isDistributing st; error := error st;
     timeouts := timeouts st |}.

Definition setAssignments (v : list TaskAssignment.t) (st : App) : App :=
  {| employees := employees st; rankedEmployees := rankedEmployees st;
     assignments := v; isRanking := isRanking st;
     isDistributing := isDistributing st; error := error st;
     timeouts := timeouts st |}.

Definition setIsRanking (v : bool) (st : App) : App :=
  {| employees := employees st; rankedEmployees := rankedEmployees st;
     assignments := assignments st; isRanking := v;
     isDistributing := isDistributing st; error := error st;
     timeouts := timeouts st |}.

Definition setIsDistributing (v : bool) (st : App) : App :=
  {| employees := employees st; rankedEmployees := rankedEmployees st;
     assignments := assignments st; isRanking := isRanking st;
     isDistributing := v; error := error st;
     timeouts := timeouts st |}.

Definition setError (v : option string) (st : App) : App :=
  {| employees := employees st; rankedEmployees := rankedEmployees st;
     assignments := assignments st; isRanking := isRanking st;
     isDistributing := isDistributing st; error := v;
     timeouts := timeouts st |}.

Definition setTimeout (delay : Z) (st : App) : App :=
  {| employees := employees st; rankedEmployees := rankedEmployees st;
     assignments := assignments st; isRanking := isRanking st;
     isDistributing := isDistributing st; error := error st;
     timeouts := timeouts st ++ [delay] |}.

Definition handleSetError (message : string) (st : App) : App :=
  setTimeout 7000 (setError (Some message) st).

Definition handleAddEmployee (employee : AnalyzedEmployee.t) (st : App) : App :=
  setAssignments []
    (setRankedEmployees []
       (setEmployees (fun prev => prev ++ [employee]) st)).

(** [handleRankEmployees] up to its [await]: the state it leaves and the
    roster it sends, if it sends one. *)
Definition handleRankEmployees_call (st : App)
  : App * option (list AnalyzedEmployee.t) :=
  if (List.length (employees st) =? 0)%nat then (st, None)
  else (setError None (setIsRanking true st), Some (employees st)).

(** [handleRankEmployees] from its [await] on, applied to the state as it is
    when the promise settles: the rest of [try] or [catch], then [finally]. *)
Definition handleRankEmployees_settle (outcome : Settled (list RankedEmployee.t))
  (st : App) : App :=
  setIsRanking false
    match outcome with
    | inr result => setRankedEmployees result st
    | inl err =>
        setError (Some (message_or "An unknown error occurred during ranking." err)) st
    end.

(** The whole handler, when nothing else happens while it waits. *)
Definition handleRankEmployees (response : ModelResponse (list Ranking.t))
  (st : App) : App :=
  match handleRankEmployees_call st with
  | (st', Some roster) => handleRankEmployees_settle (rankEmployees roster response) st'
  | (st', None) => st'
  end.

(** [tasksText.split('\n').filter(t => t.trim() !== '')] *)
Definition parse_tasks (tasksText : JsText.t) : list JsText.t :=
  filter (fun t => JsText.nonempty (JsText.trim t)) (JsText.split_lines tasksText).

(** [handleDistributeTasks] up to its [await]: the state it leaves and the
    arguments of the request, if it issues one. *)
Definition handleDistributeTasks_call (tasksText : JsText.t) (st : App)
  : App * option (list RankedEmployee.t * list JsText.t) :=
  if (List.length (rankedEmployees st) =? 0)%nat then (st, None)
  else
    let tasks := parse_tasks tasksText in
    if (List.length tasks =? 0)%nat then (st, None)
    else (setError None (setIsDistributing true st), Some (rankedEmployees st, tasks)).

Definition handleDistributeTasks_settle (outcome : Settled (list TaskAssignment.t))
  (st : App) : App :=
  setIsDistributing false
    match outcome with
    | inr result => setAssignments result st
    | inl err =>
        setError
          (Some (message_or "An unknown error occurred during task distribution." err)) st
    end.

Definition handleDistributeTasks (tasksText : JsText.t)
  (response : ModelResponse (list TaskAssignment.t)) (st : App) : App :=
  match handleDistributeTasks_call tasksText st with
  | (st', Some (roster, tasks)) =>
      handleDistributeTasks_settle (distributeTasks roster tasks response) st'
  | (st', None) => st'
  end.

(** *** [EmployeeForm] *)

Module EmployeeForm.
Record t : Type := mk {
  name : string;
  resumeFile : option File;
  isAnalyzing : bool
}.

Definition setResumeFile (v : option File) (form : t) : t :=
  {| name := name form; resumeFile := v; isAnalyzing := isAnalyzing form |}.
End EmployeeForm.

(** The [<input type="file">] that the change event targets. *)
Record FileInput : Type := {
  files : list File;
  value : string
}.

(** [e.target.value = '']: on a file input this empties the selection. *)
Definition clear_value (target : FileInput) : FileInput :=
  {| files := []; value := "" |}.

Definition InvalidUpload : string := "Please upload a valid PDF file.".

(** [handleFileChange]: the form, the input, and the messages it passed to
    [onError], in order. *)
Definition handleFileChange (target : FileInput) (form : EmployeeForm.t)
  : EmployeeForm.t * FileInput * list string :=
  match files target with
  | file :: _ =>
      if file_type file =? "application/pdf" then
        (EmployeeForm.setResumeFile (Some file) form, target, [""])
      else
        (EmployeeForm.setResumeFile None form, clear_value target, [InvalidUpload])
  | [] => (form, target, [])
  end.

(** [App] with its [EmployeeForm], where [onError] is [handleSetError]. *)
Record Session : Type := {
  app : App;
  form : EmployeeForm.t;
  resume_upload : FileInput
}.

(** The change event of the file input, fired on the input as the user's
    choice left it. *)
Definition file_change (s : Session) : Session :=
  let '(form', target', messages) := handleFileChange (resume_upload s) (form s) in
  {| app := fold_left (fun st message => handleSetError message st) messages (app s);
     form := form';
     resume_upload := target' |}.

(** ** Sample data *)

Definition Al : AnalyzedEmployee.t := AnalyzedEmployee.mk "a" "Al" "" ["Go"] 5%float.
Definition Bo : AnalyzedEmployee.t := AnalyzedEmployee.mk "b" "Bo" "" ["Rust"] 2%float.
Definition Cy : AnalyzedEmployee.t := AnalyzedEmployee.mk "c" "Cy" "" [] 1%float.

(** A session in which [Al] has been ranked and given a task. *)
Definition ranked_app : App :=
  {| employees := [Al];
     rankedEmployees := [spread_ranking Al (Ranking.mk "a" 80 "Strong")];
     assignments := [TaskAssignment.mk "a" [JsText.of_string "Write report"]];
     isRanking := false;
     isDistributing := false;
     error := None;
     timeouts := [] |}.

(** The same roster before any ranking. *)
Definition unranked_app : App :=
  {| employees := [Al];
     rankedEmployees := [];
     assignments := [];
     isRanking := false;
     isDistributing := false;
     error := None;
     timeouts := [] |}.

(** Two tasks with a line of blanks between them. *)
Definition two_tasks : JsText.t :=
  JsText.of_string "Write report" ++ [JsText.LF; 32%N; 9%N; JsText.LF]
  ++ JsText.of_string "Fix bug".

(** Only blanks and line ends. *)
Definition blank_lines : JsText.t := [32%N; JsText.LF; 160%N; 9%N; JsText.LF].

Definition png_file : File := {| file_name := "bo.png"; file_type := "image/png" |}.

(** The form holds a PDF chosen before; the user has now picked a PNG. *)
Definition png_session : Session :=
  {| app := ranked_app;
     form := EmployeeForm.mk "Bo"
               (Some {| file_name := "bo.pdf"; file_type := "application/pdf" |}) false;
     resume_upload := {| files := [png_file]; value := "C:\fakepath\bo.png" |} |}.

(** A PDF library that asks for a password for every document. *)
Definition locking_lib : PdfJs :=
  {| getDocument := fun _ => inl (ErrorObject "PasswordException" "No password given") |}.

(** A PDF library that finds every document malformed. *)
Definition rejecting_lib : PdfJs :=
  {| getDocument := fun _ => inl (ErrorObject "InvalidPDFException" "Invalid PDF structure.") |}.

(** A document of two pages; the canvas of page 1 encodes to [UDE=], that of
    any other page to [UDI=]. *)
Definition two_page_pdf : PdfDocument :=
  {| numPages := 2;
     getPage := fun i =>
       inr {| getViewport := fun scale => {| height := scale; width := scale |};
              render := fun _ =>
                inr {| toDataURL := fun type =>
                         String.append "data:"
                           (String.append type
                              (String.append ";base64,"
                                 (if (i =? 1)%nat then "UDE=" else "UDI="))) |} |} |}.

Definition two_page_lib : PdfJs := {| getDocument := fun _ => inr two_page_pdf |}.

Definition resume_file : File :=
  {| file_name := "resume.pdf"; file_type := "application/pdf" |}.

(** A browser in which the file is read and every canvas has a context. *)
Definition browser_with (lib : option PdfJs) : Browser :=
  {| pdfjsLib := lib;
     readAsArrayBuffer := fun _ => ReadLoaded (Some []);
     getContext2d := fun _ => true |}.

(** A browser in which reading the file fails. *)
Definition browser_read_error (lib : option PdfJs) : Browser :=
  {| pdfjsLib := lib;
     readAsArrayBuffer := fun _ => ReadError;
     getContext2d := fun _ => true |}.

(** A browser that gives no 2D context. *)
Definition browser_no_context (lib : option PdfJs) : Browser :=
  {| pdfjsLib := lib;
     readAsArrayBuffer := fun _ => ReadLoaded (Some []);
     getContext2d := fun _ => false |}.

(** * Properties *)

(** ** The sort *)

Section ArraySortFacts.
Context {A : Type} (cmp : A -> A -> Z).

Lemma sort_insert_perm (x : A) (l : list A) :
  Permutation (x :: l) (sort_insert cmp x l).
Proof.
  induction l as [|y l IH]; simpl.
  - apply Permutation_refl.
  - destruct (cmp x y <=? 0)%Z.
    + apply Permutation_refl.
    + eapply perm_trans; [apply perm_swap|].
      apply perm_skip, IH.
Qed.

Lemma array_sort_perm (l : list A) : Permutation l (array_sort cmp l).
Proof.
  induction l as [|x l IH]; simpl.
  - apply perm_nil.
  - eapply perm_trans; [apply perm_skip, IH|].
    apply sort_insert_perm.
Qed.

Lemma array_sort_length (l : list A) :
  List.length (array_sort cmp l) = List.length l.
Proof. symmetry. apply Permutation_length, array_sort_perm. Qed.

Lemma array_sort_In (l : list A) (x : A) : In x (array_sort cmp l) <-> In x l.
Proof.
  split; intro H.
  - eapply Permutation_in; [apply Permutation_sym, array_sort_perm|exact H].
  - eapply Permutation_in; [apply array_sort_perm|exact H].
Qed.

(** A comparator that, put to two elements the other way round, does not
    answer "before" twice over. *)
Hypothesis cmp_total : forall a b, (0 < cmp a b)%Z -> (cmp b a <= 0)%Z.

Lemma sort_insert_HdRel (x a : A) (l : list A) :
  HdRel (may_precede cmp) a l -> may_precede cmp a x ->
  HdRel (may_precede cmp) a (sort_insert cmp x l).
Proof.
  intros Hl Hax. destruct l as [|y l]; simpl.
  - constructor. exact Hax.
  - destruct (cmp x y <=? 0)%Z; constructor.
    + exact Hax.
    + inversion Hl; assumption.
Qed.

Lemma sort_insert_sorted (x : A) (l : list A) :
  Sorted (may_precede cmp) l -> Sorted (may_precede cmp) (sort_insert cmp x l).
Proof.
  induction 1 as [|y l Hs IH Hhd]; simpl.
  - repeat constructor.
  - destruct (cmp x y <=? 0)%Z eqn:E.
    + constructor; [constructor; assumption|].
      constructor. apply Z.leb_le. exact E.
    + constructor; [exact IH|].
      apply sort_insert_HdRel; [exact Hhd|].
      apply cmp_total. apply Z.leb_gt in E. exact E.
Qed.

Lemma array_sort_sorted (l : list A) : Sorted (may_precede cmp) (array_sort cmp l).
Proof.
  induction l as [|x l IH]; simpl.
  - constructor.
  - apply sort_insert_sorted, IH.
Qed.
End ArraySortFacts.

Lemma by_rank_desc_sorted (l : list RankedEmployee.t) :
  StronglySorted rank_ge (array_sort by_rank_desc l).
Proof.
  apply Sorted_StronglySorted.
  - intros a b c Hab Hbc. unfold rank_ge in *. lia.
  - eapply Sorted_ind with (P := fun l => Sorted rank_ge l);
      [constructor| |apply (array_sort_sorted by_rank_desc)].
    + intros a l0 _ IH Hhd. constructor; [exact IH|].
      destruct Hhd as [|b l1 Hab]; constructor.
      unfold may_precede, by_rank_desc in Hab. unfold rank_ge. lia.
    + intros a b. unfold by_rank_desc. lia.
Qed.

(** ** The merge *)

Lemma find_ranking_Some (rankedData : list Ranking.t) (emp : AnalyzedEmployee.t)
  (ranking : Ranking.t) :
  find_ranking rankedData emp = Some ranking ->
  In ranking rankedData /\ Ranking.id ranking = AnalyzedEmployee.id emp.
Proof.
  unfold find_ranking. intro H. apply find_some in H. destruct H as [Hin Heq].
  split; [exact Hin|]. apply String.eqb_eq. exact Heq.
Qed.

Lemma find_ranking_None (rankedData : list Ranking.t) (emp : AnalyzedEmployee.t) :
  ~ In (AnalyzedEmployee.id emp) (map Ranking.id rankedData) ->
  find_ranking rankedData emp = None.
Proof.
  unfold find_ranking. intro Hnot.
  destruct (find _ rankedData) as [r|] eqn:E; [|reflexivity].
  apply find_some in E. destruct E as [Hin Heq].
  apply String.eqb_eq in Heq. exfalso. apply Hnot.
  rewrite <- Heq. apply in_map. exact Hin.
Qed.

Lemma find_ranking_first (before after : list Ranking.t) (ranking : Ranking.t)
  (emp : AnalyzedEmployee.t) :
  Ranking.id ranking = AnalyzedEmployee.id emp ->
  (forall q, In q before -> Ranking.id q <> AnalyzedEmployee.id emp) ->
  find_ranking (before ++ ranking :: after) emp = Some ranking.
Proof.
  unfold find_ranking. intros Hid Hbefore.
  induction before as [|q before IH]; simpl.
  - apply String.eqb_eq in Hid. rewrite Hid. reflexivity.
  - destruct (Ranking.id q =? AnalyzedEmployee.id emp) eqn:E.
    + apply String.eqb_eq in E. exfalso. apply (Hbefore q); [left; reflexivity|exact E].
    + apply IH. intros q' Hq'. apply Hbefore. right. exact Hq'.
Qed.

Lemma merge_ranking_base (rankedData : list Ranking.t) (emp : AnalyzedEmployee.t) :
  RankedEmployee.base (merge_ranking rankedData emp) = emp.
Proof.
  unfold merge_ranking.
  destruct (find_ranking rankedData emp) as [r|] eqn:E.
  - apply find_ranking_Some in E. destruct E as [_ Hid].
    destruct emp. unfold RankedEmployee.base. simpl in *. rewrite Hid. reflexivity.
  - destruct emp. reflexivity.
Qed.

Lemma map_merge_ranking_base (rankedData : list Ranking.t)
  (employees : list AnalyzedEmployee.t) :
  map RankedEmployee.base (map (merge_ranking rankedData) employees) = employees.
Proof.
  induction employees as [|emp l IH]; simpl.
  - reflexivity.
  - rewrite merge_ranking_base, IH. reflexivity.
Qed.

Lemma rankEmployees_parsed (employees : list AnalyzedEmployee.t)
  (rankedData : list Ranking.t) :
  rankEmployees employees (Parsed rankedData)
  = inr (array_sort by_rank_desc (map (merge_ranking rankedData) employees)).
Proof. reflexivity. Qed.

(** The example of the specification: one employee, ranked 80. *)
Example rankEmployees_example :
  rankEmployees
    [Al] (Parsed [Ranking.mk "a" 80 "Strong"])
  = inr [RankedEmployee.mk "a" "Al" "" ["Go"] 5%float 80 "Strong"].
Proof. reflexivity. Qed.

(** Three employees, the response in another order and without ["c"]. *)
Example rankEmployees_example_order :
  rankEmployees
    [Al; Bo; Cy]
    (Parsed [Ranking.mk "b" 90 "Best"; Ranking.mk "a" 40 "Fair";
             Ranking.mk "b" 10 "Again"])
  = inr [RankedEmployee.mk "b" "Bo" "" ["Rust"] 2%float 90 "Best";
         RankedEmployee.mk "a" "Al" "" ["Go"] 5%float 40 "Fair";
         RankedEmployee.mk "c" "Cy" "" [] 1%float 0 "Not ranked"].
Proof. reflexivity. Qed.

(** ** Claims on [rankEmployees] *)

(** C1.  When the response array holds no entry with the id of a roster
    entry, [rankEmployees] does not fail, and the entry it produces for that
    roster entry is in its result, is the roster entry extended, has rank 0
    and has the justification "Not ranked". *)
Theorem rankEmployees_absent_id_not_ranked
  (employees : list AnalyzedEmployee.t) (rankedData : list Ranking.t)
  (emp : AnalyzedEmployee.t) :
  In emp employees ->
  ~ In (AnalyzedEmployee.id emp) (map Ranking.id rankedData) ->
  exists ranked entry,
    rankEmployees employees (Parsed rankedData) = inr ranked /\
    entry = merge_ranking rankedData emp /\
    In entry ranked /\
    RankedEmployee.base entry = emp /\
    RankedEmployee.rank entry = 0%Z /\
    RankedEmployee.justification entry = "Not ranked".
Proof.
  intros Hin Habsent.
  exists (array_sort by_rank_desc (map (merge_ranking rankedData) employees)).
  exists (merge_ranking rankedData emp).
  split; [apply rankEmployees_parsed|].
  split; [reflexivity|].
  split.
  - apply array_sort_In. apply in_map. exact Hin.
  - split; [apply merge_ranking_base|].
    unfold merge_ranking. rewrite (find_ranking_None _ _ Habsent).
    split; reflexivity.
Qed.

Lemma rankEmployees_absent_id_not_ranked_witness :
  exists ranked entry,
    rankEmployees
      [Al; Cy] (Parsed [Ranking.mk "a" 80 "Strong"]) = inr ranked /\
    entry = merge_ranking [Ranking.mk "a" 80 "Strong"] Cy /\
    In entry ranked /\
    RankedEmployee.base entry = Cy /\
    RankedEmployee.rank entry = 0%Z /\
    RankedEmployee.justification entry = "Not ranked".
Proof.
  apply (rankEmployees_absent_id_not_ranked
           [Al; Cy] [Ranking.mk "a" 80 "Strong"] Cy).
  - simpl. right. left. reflexivity.
  - simpl. intros [H|[]]. discriminate H.
Defined.

(** C2.  Whatever the roster and the response array, in whatever order its
    entries come, [rankEmployees] returns a list in which every entry has a
    rank greater than or equal to the rank of every entry after it. *)
Theorem rankEmployees_sorted_by_rank_desc
  (employees : list AnalyzedEmployee.t) (rankedData : list Ranking.t) :
  exists ranked,
    rankEmployees employees (Parsed rankedData) = inr ranked /\
    StronglySorted rank_ge ranked.
Proof.
  eexists. split; [apply rankEmployees_parsed|].
  apply by_rank_desc_sorted.
Qed.

(** C3.  The result of [rankEmployees] is as long as the roster; the id of
    every entry of the result is the id of a roster entry; and the entry
    produced for a roster entry takes rank and justification from the first
    entry of the response array that has its id. *)
Theorem rankEmployees_length_ids_first_match
  (employees : list AnalyzedEmployee.t) (rankedData : list Ranking.t) :
  exists ranked,
    rankEmployees employees (Parsed rankedData) = inr ranked /\
    List.length ranked = List.length employees /\
    (forall entry, In entry ranked ->
       In (RankedEmployee.id entry) (map AnalyzedEmployee.id employees)) /\
    (forall emp before ranking after,
       In emp employees ->
       rankedData = before ++ ranking :: after ->
       Ranking.id ranking = AnalyzedEmployee.id emp ->
       (forall q, In q before -> Ranking.id q <> AnalyzedEmployee.id emp) ->
       merge_ranking rankedData emp = spread_ranking emp ranking /\
       In (spread_ranking emp ranking) ranked).
Proof.
  eexists. split; [apply rankEmployees_parsed|].
  split; [rewrite array_sort_length; apply length_map|].
  split.
  - intros entry Hin. apply array_sort_In in Hin.
    apply in_map_iff in Hin. destruct Hin as [emp [Heq Hemp]].
    apply in_map_iff. exists emp. split; [|exact Hemp].
    rewrite <- Heq.
    change (AnalyzedEmployee.id emp
            = AnalyzedEmployee.id (RankedEmployee.base (merge_ranking rankedData emp))).
    rewrite merge_ranking_base. reflexivity.
  - intros emp before ranking after Hin Hdata Hid Hfirst.
    assert (Hmerge : merge_ranking rankedData emp = spread_ranking emp ranking).
    { unfold merge_ranking. rewrite Hdata.
      rewrite (find_ranking_first _ _ _ _ Hid Hfirst). reflexivity. }
    split; [exact Hmerge|].
    apply array_sort_In. rewrite <- Hmerge. apply in_map. exact Hin.
Qed.

Lemma rankEmployees_length_ids_first_match_witness :
  exists ranked,
    rankEmployees [Al; Bo; Cy]
      (Parsed [Ranking.mk "b" 90 "Best"; Ranking.mk "a" 40 "Fair";
               Ranking.mk "b" 10 "Again"]) = inr ranked /\
    List.length ranked = 3 /\
    In (spread_ranking Bo (Ranking.mk "b" 90 "Best")) ranked /\
    In (spread_ranking Al (Ranking.mk "a" 40 "Fair")) ranked.
Proof.
  destruct (rankEmployees_length_ids_first_match [Al; Bo; Cy]
              [Ranking.mk "b" 90 "Best"; Ranking.mk "a" 40 "Fair";
               Ranking.mk "b" 10 "Again"])
    as [ranked (Hranked & Hlength & _ & Hfirst)].
  exists ranked.
  split; [exact Hranked|].
  split; [exact Hlength|].
  split.
  - apply (Hfirst Bo [] (Ranking.mk "b" 90 "Best")
             [Ranking.mk "a" 40 "Fair"; Ranking.mk "b" 10 "Again"]).
    + simpl. right. left. reflexivity.
    + reflexivity.
    + reflexivity.
    + intros q [].
  - apply (Hfirst Al [Ranking.mk "b" 90 "Best"] (Ranking.mk "a" 40 "Fair")
             [Ranking.mk "b" 10 "Again"]).
    + simpl. left. reflexivity.
    + reflexivity.
    + reflexivity.
    + intros q [<-|[]]. simpl. discriminate.
Defined.

(** C9.  For every roster entry the entry that [rankEmployees] produces has
    the same id, name, summary, skills and experienceYears: stripped of rank
    and justification, the entries of the result are the roster entries, each
    as often as it occurs in the roster. *)
Theorem rankEmployees_preserves_analyzed_fields
  (employees : list AnalyzedEmployee.t) (rankedData : list Ranking.t) :
  exists ranked,
    rankEmployees employees (Parsed rankedData) = inr ranked /\
    Permutation ranked (map (merge_ranking rankedData) employees) /\
    (forall emp, RankedEmployee.base (merge_ranking rankedData emp) = emp) /\
    Permutation (map RankedEmployee.base ranked) employees.
Proof.
  eexists. split; [apply rankEmployees_parsed|].
  assert (Hperm : Permutation
                    (array_sort by_rank_desc (map (merge_ranking rankedData) employees))
                    (map (merge_ranking rankedData) employees))
    by (apply Permutation_sym, array_sort_perm).
  split; [exact Hperm|].
  split; [intro emp; apply merge_ranking_base|].
  rewrite <- (map_merge_ranking_base rankedData employees) at 2.
  apply Permutation_map. exact Hperm.
Qed.

(** ** Claims on the state controller *)

Lemma rankEmployees_failed (roster : list AnalyzedEmployee.t)
  (response : ModelResponse (list Ranking.t)) :
  response_failed response = true ->
  rankEmployees roster response = inl RankingFailed.
Proof. destruct response; simpl; intro H; [reflexivity|reflexivity|discriminate H]. Qed.

Lemma handleRankEmployees_call_ranked (st : App) :
  rankedEmployees (fst (handleRankEmployees_call st)) = rankedEmployees st.
Proof.
  unfold handleRankEmployees_call.
  destruct (List.length (employees st) =? 0)%nat; reflexivity.
Qed.

(** C4.  When the model call is rejected or its text is not JSON,
    [rankEmployees] raises [RankingFailed]; the handler then leaves the
    stored ranked roster as it was, both before and after the wait and
    whatever the state has become in between, and shows the message.  In
    every case the stored ranked roster after the handler is the previous one
    or the whole result, never a part of it. *)
Theorem ranking_failure_keeps_ranked_roster
  (roster : list AnalyzedEmployee.t) (response : ModelResponse (list Ranking.t))
  (st later : App) :
  response_failed response = true ->
  rankEmployees roster response = inl RankingFailed /\
  rankedEmployees (fst (handleRankEmployees_call st)) = rankedEmployees st /\
  rankedEmployees (handleRankEmployees_settle (rankEmployees roster response) later)
  = rankedEmployees later /\
  error (handleRankEmployees_settle (rankEmployees roster response) later)
  = Some "Failed to rank employees with Gemini API." /\
  rankedEmployees (handleRankEmployees response st) = rankedEmployees st /\
  (forall outcome,
     rankedEmployees (handleRankEmployees_settle outcome later)
     = match outcome with
       | inr result => result
       | inl _ => rankedEmployees later
       end).
Proof.
  intro Hfailed.
  split; [apply rankEmployees_failed; exact Hfailed|].
  split; [apply handleRankEmployees_call_ranked|].
  rewrite (rankEmployees_failed roster response Hfailed).
  split; [reflexivity|].
  split; [reflexivity|].
  split.
  - unfold handleRankEmployees, handleRankEmployees_call.
    destruct (List.length (employees st) =? 0)%nat; [reflexivity|].
    rewrite (rankEmployees_failed _ response Hfailed). reflexivity.
  - intros [e|result]; reflexivity.
Qed.

Lemma ranking_failure_keeps_ranked_roster_witness :
  rankEmployees [Al; Bo] (TextNotJson (ErrorObject "SyntaxError" "Unexpected end of JSON input"))
  = inl RankingFailed /\
  rankedEmployees (handleRankEmployees
                     (TextNotJson (ErrorObject "SyntaxError" "Unexpected end of JSON input"))
                     ranked_app)
  = [spread_ranking Al (Ranking.mk "a" 80 "Strong")].
Proof.
  pose proof (ranking_failure_keeps_ranked_roster [Al; Bo]
                (TextNotJson (ErrorObject "SyntaxError" "Unexpected end of JSON input"))
                ranked_app ranked_app eq_refl) as H.
  split; [exact (proj1 H)|].
  exact (proj1 (proj2 (proj2 (proj2 (proj2 H))))).
Defined.

(** C5.  In every state, so in every state that holds a ranking and task
    assignments, adding an analyzed employee puts it at the end of the roster
    and leaves the ranked roster and the assignments empty; the flags, the
    error and the timers stay. *)
Theorem handleAddEmployee_appends_and_resets
  (employee : AnalyzedEmployee.t) (st : App) :
  employees (handleAddEmployee employee st) = employees st ++ [employee] /\
  rankedEmployees (handleAddEmployee employee st) = [] /\
  assignments (handleAddEmployee employee st) = [] /\
  isRanking (handleAddEmployee employee st) = isRanking st /\
  isDistributing (handleAddEmployee employee st) = isDistributing st /\
  error (handleAddEmployee employee st) = error st /\
  timeouts (handleAddEmployee employee st) = timeouts st.
Proof. repeat split. Qed.

Example handleAddEmployee_on_ranked_app :
  handleAddEmployee Bo ranked_app
  = {| employees := [Al; Bo]; rankedEmployees := []; assignments := [];
       isRanking := false; isDistributing := false; error := None;
       timeouts := [] |}.
Proof. reflexivity. Qed.

(** C6.  When the first file of the selection has a type other than
    [application/pdf], the change handler leaves the roster, the ranking, the
    assignments, the name field and the busy flag as they were, empties the
    file of the form and the selection of the input, and passes to [onError]
    one message, the [InvalidUpload] one, which becomes the error shown. *)
Theorem non_pdf_upload_rejected (s : Session) (file : File) (others : list File) :
  files (resume_upload s) = file :: others ->
  file_type file <> "application/pdf" ->
  employees (app (file_change s)) = employees (app s) /\
  rankedEmployees (app (file_change s)) = rankedEmployees (app s) /\
  assignments (app (file_change s)) = assignments (app s) /\
  EmployeeForm.name (form (file_change s)) = EmployeeForm.name (form s) /\
  EmployeeForm.isAnalyzing (form (file_change s)) = EmployeeForm.isAnalyzing (form s) /\
  EmployeeForm.resumeFile (form (file_change s)) = None /\
  files (resume_upload (file_change s)) = [] /\
  value (resume_upload (file_change s)) = "" /\
  snd (handleFileChange (resume_upload s) (form s)) = [InvalidUpload] /\
  error (app (file_change s)) = Some InvalidUpload /\
  timeouts (app (file_change s)) = timeouts (app s) ++ [7000%Z].
Proof.
  intros Hfiles Htype.
  unfold file_change, handleFileChange. rewrite Hfiles.
  destruct (file_type file =? "application/pdf") eqn:E.
  - apply String.eqb_eq in E. contradiction.
  - simpl. repeat split.
Qed.

Lemma non_pdf_upload_rejected_witness :
  file_change png_session
  = {| app := {| employees := employees ranked_app;
                 rankedEmployees := rankedEmployees ranked_app;
                 assignments := assignments ranked_app;
                 isRanking := false; isDistributing := false;
                 error := Some InvalidUpload; timeouts := [7000%Z] |};
       form := EmployeeForm.mk "Bo" None false;
       resume_upload := {| files := []; value := "" |} |}
  /\ snd (handleFileChange (resume_upload png_session) (form png_session))
     = [InvalidUpload]
  /\ error (app (file_change png_session)) = Some InvalidUpload.
Proof.
  split; [reflexivity|].
  assert (Htype : file_type png_file <> "application/pdf") by (simpl; discriminate).
  destruct (non_pdf_upload_rejected png_session png_file [] eq_refl Htype)
    as (_ & _ & _ & _ & _ & _ & _ & _ & Hmessages & Herror & _).
  split; [exact Hmessages|exact Herror].
Defined.

(** ** The task text *)

Lemma split_list_not_nil {A : Type} (is_sep : A -> bool) (l : list A) :
  split_list is_sep l <> [].
Proof.
  destruct l as [|c l]; simpl; [discriminate|].
  destruct (is_sep c); [discriminate|].
  destruct (split_list is_sep l); discriminate.
Qed.

Lemma split_list_no_separator {A : Type} (is_sep : A -> bool) (l piece : list A) (c : A) :
  In piece (split_list is_sep l) -> In c piece -> is_sep c = false.
Proof.
  revert piece. induction l as [|d l IH]; simpl; intros piece Hpiece Hc.
  - destruct Hpiece as [<-|[]]. destruct Hc.
  - destruct (is_sep d) eqn:Ed.
    + destruct Hpiece as [<-|Hpiece]; [destruct Hc|].
      exact (IH piece Hpiece Hc).
    + destruct (split_list is_sep l) as [|h t] eqn:Es.
      * destruct Hpiece as [<-|[]]. destruct Hc as [<-|[]]. exact Ed.
      * destruct Hpiece as [<-|Hpiece].
        -- destruct Hc as [<-|Hc]; [exact Ed|].
           apply (IH h); [left; reflexivity|exact Hc].
        -- apply (IH piece); [right; exact Hpiece|exact Hc].
Qed.

Lemma join_split_lines (s : JsText.t) :
  JsText.join_lines (JsText.split_lines s) = s.
Proof.
  unfold JsText.split_lines.
  induction s as [|c s IH]; [reflexivity|].
  cbn [split_list].
  pose proof (split_list_not_nil (N.eqb JsText.LF) s) as Hne.
  destruct (N.eqb JsText.LF c) eqn:Ec.
  - apply N.eqb_eq in Ec. subst c.
    destruct (split_list (N.eqb JsText.LF) s) as [|h t]; [contradiction|].
    change (JsText.join_lines ([] :: h :: t))
      with (JsText.LF :: JsText.join_lines (h :: t)).
    rewrite IH. reflexivity.
  - destruct (split_list (N.eqb JsText.LF) s) as [|h t]; [contradiction|].
    rewrite <- IH. destruct t; reflexivity.
Qed.

Lemma trimStart_forallb (s : JsText.t) :
  forallb JsText.is_white_space (JsText.trimStart s) = forallb JsText.is_white_space s.
Proof.
  induction s as [|c s IH]; simpl; [reflexivity|].
  destruct (JsText.is_white_space c) eqn:E; simpl.
  - exact IH.
  - rewrite E. reflexivity.
Qed.

Lemma trimStart_nonempty (s : JsText.t) :
  JsText.nonempty (JsText.trimStart s) = negb (forallb JsText.is_white_space s).
Proof.
  induction s as [|c s IH]; simpl; [reflexivity|].
  destruct (JsText.is_white_space c); simpl; [exact IH|reflexivity].
Qed.

Lemma forallb_rev {A : Type} (f : A -> bool) (l : list A) :
  forallb f (rev l) = forallb f l.
Proof.
  induction l as [|x l IH]; simpl; [reflexivity|].
  rewrite forallb_app, IH. simpl. rewrite andb_true_r. apply andb_comm.
Qed.

Lemma nonempty_rev (s : JsText.t) : JsText.nonempty (rev s) = JsText.nonempty s.
Proof.
  destruct s as [|c s]; simpl; [reflexivity|].
  destruct (rev s); reflexivity.
Qed.

(** [t.trim() !== ''] holds exactly of the texts that have a character which
    is not white space. *)
Lemma trim_nonempty (s : JsText.t) :
  JsText.nonempty (JsText.trim s) = negb (forallb JsText.is_white_space s).
Proof.
  unfold JsText.trim, JsText.trimEnd.
  rewrite nonempty_rev, trimStart_nonempty, forallb_rev, trimStart_forallb.
  reflexivity.
Qed.

Example parse_tasks_two_tasks :
  parse_tasks two_tasks = [JsText.of_string "Write report"; JsText.of_string "Fix bug"].
Proof. reflexivity. Qed.

Example parse_tasks_blank_lines : parse_tasks blank_lines = [].
Proof. reflexivity. Qed.

Example split_lines_blank_lines :
  JsText.split_lines blank_lines = [[32%N]; [160%N; 9%N]; []].
Proof. reflexivity. Qed.

Example trim_example :
  JsText.trim ([32%N; 9%N] ++ JsText.of_string "a b" ++ [13%N; 8232%N])
  = JsText.of_string "a b".
Proof. reflexivity. Qed.

(** C10.  The tasks of a text are its lines, the pieces between its line
    feeds, in order and without those made of white space only.  When there
    is no task, or the ranked roster is empty, the handler issues no request
    and returns the state it was given, with its assignments, its error and
    its busy flags; otherwise it issues one request, with the ranked roster
    and the tasks. *)
Theorem handleDistributeTasks_skips_without_tasks_or_ranking
  (tasksText : JsText.t) (st : App) :
  parse_tasks tasksText
  = filter (fun t => negb (forallb JsText.is_white_space t))
      (JsText.split_lines tasksText) /\
  JsText.join_lines (JsText.split_lines tasksText) = tasksText /\
  (forall line c, In line (JsText.split_lines tasksText) -> In c line -> c <> JsText.LF) /\
  (forall t, In t (parse_tasks tasksText) <->
     In t (JsText.split_lines tasksText) /\ forallb JsText.is_white_space t = false) /\
  (rankedEmployees st = [] \/ parse_tasks tasksText = [] ->
   handleDistributeTasks_call tasksText st = (st, None) /\
   forall response,
     handleDistributeTasks tasksText response st = st /\
     assignments (handleDistributeTasks tasksText response st) = assignments st /\
     error (handleDistributeTasks tasksText response st) = error st /\
     isDistributing (handleDistributeTasks tasksText response st) = isDistributing st /\
     isRanking (handleDistributeTasks tasksText response st) = isRanking st) /\
  (rankedEmployees st <> [] -> parse_tasks tasksText <> [] ->
   handleDistributeTasks_call tasksText st
   = (setError None (setIsDistributing true st),
      Some (rankedEmployees st, parse_tasks tasksText))).
Proof.
  assert (Hparse : parse_tasks tasksText
                   = filter (fun t => negb (forallb JsText.is_white_space t))
                       (JsText.split_lines tasksText)).
  { unfold parse_tasks. apply filter_ext. intro t. apply trim_nonempty. }
  split; [exact Hparse|].
  split; [apply join_split_lines|].
  split.
  { intros line c Hline Hc Heq. subst c.
    pose proof (split_list_no_separator _ _ _ _ Hline Hc) as H.
    discriminate H. }
  split.
  { intro t. rewrite Hparse, filter_In, negb_true_iff. reflexivity. }
  split.
  - intro Hskip.
    assert (Hcall : handleDistributeTasks_call tasksText st = (st, None)).
    { unfold handleDistributeTasks_call.
      destruct Hskip as [Hranked|Htasks].
      - rewrite Hranked. reflexivity.
      - rewrite Htasks. simpl.
        destruct (List.length (rankedEmployees st) =? 0)%nat; reflexivity. }
    split; [exact Hcall|].
    intro response. unfold handleDistributeTasks. rewrite Hcall.
    repeat split.
  - intros Hranked Htasks. unfold handleDistributeTasks_call.
    destruct (rankedEmployees st) as [|e l]; [contradiction|].
    destruct (parse_tasks tasksText) as [|t ts]; [contradiction|].
    reflexivity.
Qed.

Lemma handleDistributeTasks_skips_without_tasks_or_ranking_witness :
  handleDistributeTasks_call blank_lines ranked_app = (ranked_app, None) /\
  handleDistributeTasks_call two_tasks unranked_app = (unranked_app, None) /\
  handleDistributeTasks_call two_tasks ranked_app
  = (setError None (setIsDistributing true ranked_app),
     Some (rankedEmployees ranked_app,
           [JsText.of_string "Write report"; JsText.of_string "Fix bug"])).
Proof.
  destruct (handleDistributeTasks_skips_without_tasks_or_ranking blank_lines ranked_app)
    as (_ & _ & _ & _ & Hblank & _).
  destruct (handleDistributeTasks_skips_without_tasks_or_ranking two_tasks unranked_app)
    as (_ & _ & _ & _ & Hunranked & _).
  destruct (handleDistributeTasks_skips_without_tasks_or_ranking two_tasks ranked_app)
    as (_ & _ & _ & _ & _ & Hboth).
  split; [apply Hblank; right; reflexivity|].
  split; [apply Hunranked; left; reflexivity|].
  apply Hboth; discriminate.
Defined.

(** ** Claims on the PDF renderer *)

Example processPdfToImages_two_pages :
  processPdfToImages (browser_with (Some two_page_lib)) resume_file
  = inr [{| mimeType := "image/jpeg"; data := Some "UDE=" |};
         {| mimeType := "image/jpeg"; data := Some "UDI=" |}].
Proof. reflexivity. Qed.

Example processPdfToImages_locked :
  processPdfToImages (browser_with (Some locking_lib)) resume_file
  = inl UnsupportedDocument.
Proof. reflexivity. Qed.

Example processPdfToImages_malformed :
  processPdfToImages (browser_with (Some rejecting_lib)) resume_file
  = inl CorruptDocument.
Proof. reflexivity. Qed.

Example processPdfToImages_no_context :
  processPdfToImages (browser_no_context (Some two_page_lib)) resume_file
  = inl CorruptDocument.
Proof. reflexivity. Qed.

Lemma classify_failure_password (e : Thrown) :
  thrown_name e = Some "PasswordException" -> classify_failure e = UnsupportedDocument.
Proof. unfold classify_failure. intros ->. reflexivity. Qed.

Lemma classify_failure_other (e : Thrown) :
  thrown_name e <> Some "PasswordException" -> classify_failure e = CorruptDocument.
Proof.
  unfold classify_failure. intro Hname.
  destruct (thrown_name e) as [n|]; [|reflexivity].
  destruct (n =? "PasswordException") eqn:E; [|reflexivity].
  apply String.eqb_eq in E. subst n. contradiction.
Qed.

Lemma processPdfToImages_ready (browser : Browser) (lib : PdfJs) (file : File)
  (bytes : list Byte.byte) :
  pdfjsLib browser = Some lib ->
  readAsArrayBuffer browser file = ReadLoaded (Some bytes) ->
  processPdfToImages browser file
  = match render_document browser lib bytes with
    | inr images => inr images
    | inl error => inl (classify_failure error)
    end.
Proof. unfold processPdfToImages. intros -> ->. reflexivity. Qed.

(** C7, as the claim has it, fails: for a document that the library refuses
    for its password the renderer raises [EnvironmentUnavailable] while the
    library is not loaded, and the reading error when the file cannot be read;
    neither is [UnsupportedDocument]. *)
Lemma encrypted_pdf_other_error_kinds :
  password_protected locking_lib [] /\
  processPdfToImages (browser_with None) resume_file = inl EnvironmentUnavailable /\
  EnvironmentUnavailable <> UnsupportedDocument /\
  processPdfToImages (browser_read_error (Some locking_lib)) resume_file
  = inl FileReadFailed /\
  FileReadFailed <> UnsupportedDocument.
Proof.
  split.
  - exists (ErrorObject "PasswordException" "No password given"). split; reflexivity.
  - repeat split; discriminate.
Qed.

(** C7, amended.  Once the library is loaded and the bytes of the file are
    read: a document that the library refuses for its password makes the
    renderer fail with [UnsupportedDocument]; so does any failure of
    opening or rendering that carries the name [PasswordException]; every
    other failure of opening or rendering makes it fail with
    [CorruptDocument]; and the two errors differ, in their messages too. *)
Theorem pdf_failure_kinds (browser : Browser) (lib : PdfJs) (file : File)
  (bytes : list Byte.byte) :
  pdfjsLib browser = Some lib ->
  readAsArrayBuffer browser file = ReadLoaded (Some bytes) ->
  (password_protected lib bytes ->
   processPdfToImages browser file = inl UnsupportedDocument) /\
  (forall e, render_document browser lib bytes = inl e ->
     thrown_name e = Some "PasswordException" ->
     processPdfToImages browser file = inl UnsupportedDocument) /\
  (forall e, render_document browser lib bytes = inl e ->
     thrown_name e <> Some "PasswordException" ->
     processPdfToImages browser file = inl CorruptDocument) /\
  UnsupportedDocument <> CorruptDocument /\
  (forall fallback,
     message_or fallback UnsupportedDocument <> message_or fallback CorruptDocument).
Proof.
  intros Hlib Hread.
  rewrite (processPdfToImages_ready _ _ _ _ Hlib Hread).
  split.
  { intros [e [Hdoc Hname]]. unfold render_document. rewrite Hdoc. simpl.
    rewrite (classify_failure_password e Hname). reflexivity. }
  split.
  { intros e He Hname. rewrite He, (classify_failure_password e Hname). reflexivity. }
  split.
  { intros e He Hname. rewrite He, (classify_failure_other e Hname). reflexivity. }
  split; [discriminate|].
  intro fallback. simpl. discriminate.
Qed.

Lemma pdf_failure_kinds_witness :
  processPdfToImages (browser_with (Some locking_lib)) resume_file
  = inl UnsupportedDocument /\
  processPdfToImages (browser_with (Some rejecting_lib)) resume_file
  = inl CorruptDocument.
Proof.
  split.
  - apply (pdf_failure_kinds (browser_with (Some locking_lib)) locking_lib resume_file []
             eq_refl eq_refl).
    exists (ErrorObject "PasswordException" "No password given"). split; reflexivity.
  - eapply (pdf_failure_kinds (browser_with (Some rejecting_lib)) rejecting_lib
              resume_file [] eq_refl eq_refl).
    + reflexivity.
    + simpl. discriminate.
Defined.

Lemma render_page_ok (browser : Browser) (pdf : PdfDocument) (i : nat) :
  getContext2d browser i = true ->
  (exists page, getPage pdf i = inr page /\
     forall viewport, exists canvas, render page viewport = inr canvas) ->
  exists image, render_page browser pdf i = inr image /\ image_of_page pdf i image.
Proof.
  intros Hcontext [page [Hpage Hrender]].
  destruct (Hrender (getViewport page render_scale)) as [canvas Hcanvas].
  exists {| mimeType := "image/jpeg"; data := base64Data canvas |}.
  split.
  - unfold render_page. rewrite Hpage. simpl. rewrite Hcontext, Hcanvas. reflexivity.
  - exists page, canvas. repeat split; assumption.
Qed.

(** The loop, started at page [i] with [remaining] pages to go, pushes one
    image per page onto [images], in the order of the pages. *)
Lemma render_pages_ok (browser : Browser) (pdf : PdfDocument) (remaining : nat) :
  forall (i : nat) (images : list PageImage),
    (forall j, i <= j < i + remaining ->
       getContext2d browser j = true /\
       exists page, getPage pdf j = inr page /\
         forall viewport, exists canvas, render page viewport = inr canvas) ->
    exists pushed,
      render_pages browser pdf i remaining images = inr (images ++ pushed) /\
      List.length pushed = remaining /\
      forall k, k < remaining ->
        exists image, nth_error pushed k = Some image /\ image_of_page pdf (i + k) image.
Proof.
  induction remaining as [|remaining IH]; intros i images Hpages.
  - exists []. split; [simpl; rewrite app_nil_r; reflexivity|].
    split; [reflexivity|]. intros k Hk. lia.
  - destruct (Hpages i ltac:(lia)) as [Hcontext Hpage].
    destruct (render_page_ok browser pdf i Hcontext Hpage) as [image [Himage Hof]].
    destruct (IH (S i) (images ++ [image])) as [pushed [Hrest [Hlen Hnth]]].
    { intros j Hj. apply Hpages. lia. }
    exists (image :: pushed).
    split.
    { simpl. rewrite Himage. simpl. rewrite Hrest, <- app_assoc. reflexivity. }
    split; [simpl; rewrite Hlen; reflexivity|].
    intros [|k] Hk.
    + exists image. split; [reflexivity|]. rewrite Nat.add_0_r. exact Hof.
    + destruct (Hnth k ltac:(lia)) as [image' [Hk' Hof']].
      exists image'. split; [exact Hk'|].
      replace (i + S k) with (S i + k) by lia. exact Hof'.
Qed.

(** C8, as the claim has it, fails: of a document of two pages that the
    library opens and renders, the renderer returns no image while the
    library is not loaded, when the file cannot be read, and when a canvas
    gives no 2D context. *)
Lemma valid_pdf_without_images :
  renders_with two_page_lib [] two_page_pdf 2 /\
  processPdfToImages (browser_with None) resume_file = inl EnvironmentUnavailable /\
  processPdfToImages (browser_read_error (Some two_page_lib)) resume_file
  = inl FileReadFailed /\
  processPdfToImages (browser_no_context (Some two_page_lib)) resume_file
  = inl CorruptDocument.
Proof.
  split; [|repeat split].
  split; [reflexivity|]. split; [reflexivity|].
  intros i _. eexists. split; [reflexivity|].
  intro viewport. eexists. reflexivity.
Qed.

(** C8, amended.  Once the library is loaded, the bytes of the file are read
    and the canvas of every page gives a 2D context: for a document of [n]
    pages that the library opens and renders, the renderer returns [n]
    images, the image at position [i] (from 1) being the one of page [i],
    drawn on the viewport of scale 1.5, with the MIME type [image/jpeg] and
    the data of the JPEG data URL of the canvas. *)
Theorem pdf_pages_rendered_in_order (browser : Browser) (lib : PdfJs) (file : File)
  (bytes : list Byte.byte) (pdf : PdfDocument) (n : nat) :
  pdfjsLib browser = Some lib ->
  readAsArrayBuffer browser file = ReadLoaded (Some bytes) ->
  (forall i, 1 <= i <= n -> getContext2d browser i = true) ->
  renders_with lib bytes pdf n ->
  exists images,
    processPdfToImages browser file = inr images /\
    List.length images = n /\
    forall i, 1 <= i <= n ->
      exists image, nth_error images (i - 1) = Some image /\ image_of_page pdf i image.
Proof.
  intros Hlib Hread Hcontext (Hdoc & Hn & Hpages).
  destruct (render_pages_ok browser pdf n 1 []) as [pushed [Hrun [Hlen Hnth]]].
  { intros j Hj. split; [apply Hcontext; lia|apply Hpages; lia]. }
  exists pushed.
  split.
  { rewrite (processPdfToImages_ready _ _ _ _ Hlib Hread).
    unfold render_document. rewrite Hdoc. simpl. rewrite Hn, Hrun. reflexivity. }
  split; [exact Hlen|].
  intros i Hi. destruct (Hnth (i - 1) ltac:(lia)) as [image [Himage Hof]].
  exists image. split; [exact Himage|].
  replace i with (1 + (i - 1)) by lia. exact Hof.
Qed.

Lemma pdf_pages_rendered_in_order_witness :
  exists images,
    processPdfToImages (browser_with (Some two_page_lib)) resume_file = inr images /\
    List.length images = 2 /\
    forall i, 1 <= i <= 2 ->
      exists image,
        nth_error images (i - 1) = Some image /\ image_of_page two_page_pdf i image.
Proof.
  apply (pdf_pages_rendered_in_order (browser_with (Some two_page_lib)) two_page_lib
           resume_file [] two_page_pdf 2 eq_refl eq_refl).
  - intros i _. reflexivity.
  - split; [reflexivity|]. split; [reflexivity|].
    intros i _. eexists. split; [reflexivity|].
    intro viewport. eexists. reflexivity.
Defined.
